(** * DigiSac goal manager: the commission rules of [app.py]

    The business logic of the Streamlit script is two small functions,
    [calculate_commission_standard] and [calculate_commission_waba], and the
    processing block that sums the sales per type and calls them.  This file
    embeds that logic and proves the properties stated for it.

    Numbers.  The script computes with Python floats and with the numeric
    column of a data frame.  The code below is written once over an interface
    of the operations it uses ([Number]); the theorems are proved for the
    instance of exact rationals [Q], so rounding is outside them; the
    concrete scenarios are run again on IEEE binary64 values (the instance of
    [Binary64], over [SpecFloat]) in [OnDoubles]. *)

From Stdlib Require Import ZArith QArith Qfield Lqa Bool List String Ascii SpecFloat.
From Stdlib Require Import Permutation Qabs Lia DecimalString.
Import ListNotations.

(** ** Exceptions and results *)

Inductive exn : Type :=
| TypeError          (* unpacking a value that is not iterable *)
| ValueError         (* unpacking a tuple of the wrong length *)
| ZeroDivisionError.

Inductive result (A : Type) : Type :=
| Ok (a : A)
| Raise (e : exn).

Arguments Ok {A} a.
Arguments Raise {A} e.

Definition bind {A B : Type} (r : result A) (k : A -> result B) : result B :=
  match r with
  | Ok a => k a
  | Raise e => Raise e
  end.

Declare Scope py_scope.
Delimit Scope py_scope with py.

Notation "x <- r ;; k" := (bind r (fun x => k))
  (at level 61, r at next level, right associativity) : py_scope.
Notation "' pat <- r ;; k" := (bind r (fun x => match x with pat => k end))
  (at level 61, pat pattern, r at next level, right associativity) : py_scope.

(** ** Numbers *)

(** The operations of Python numbers the script uses.  [int] reads an integer
    literal, [float] a decimal one; [div] is the quotient for a divisor that
    is not zero (see [truediv]). *)
Class Number (N : Type) : Type := {
  int : Z -> N;
  float : Q -> N;
  add : N -> N -> N;
  mul : N -> N -> N;
  div : N -> N -> N;
  eqb : N -> N -> bool;
  leb : N -> N -> bool;
  ltb : N -> N -> bool
}.

Infix "+" := add : py_scope.
Infix "*" := mul : py_scope.
Infix "==?" := eqb (at level 70, no associativity) : py_scope.
Infix "<=?" := leb (at level 70, no associativity) : py_scope.
Infix "<?" := ltb (at level 70, no associativity) : py_scope.

#[export] Instance Q_Number : Number Q := {
  int := inject_Z;
  float := fun q => q;
  add := Qplus;
  mul := Qmult;
  div := Qdiv;
  eqb := Qeq_bool;
  leb := Qle_bool;
  ltb := fun x y => negb (Qle_bool y x)
}.

(** ** Values *)

(** What [calculate_commission_standard] can return: a bare number or a tuple
    of numbers. *)
Inductive value (N : Type) : Type :=
| VNum (x : N)
| VTuple (xs : list N).

Arguments VNum {N} x.
Arguments VTuple {N} xs.

Section Script.

Context {N : Type} `{Number N}.

Local Open Scope py_scope.

(** [x / y]: Python raises when the divisor equals zero. *)
Definition truediv (x y : N) : result N :=
  if y ==? int 0 then Raise ZeroDivisionError else Ok (div x y).

(** [a, b, c = v] *)
Definition unpack3 (v : value N) : result (N * N * N) :=
  match v with
  | VNum _ => Raise TypeError
  | VTuple [a; b; c] => Ok (a, b, c)
  | VTuple _ => Raise ValueError
  end.

(** *** Business logic (app.py, lines 12-23) *)

Definition calculate_commission_standard (sales_value target_value : N)
  : result (value N) :=
  if target_value ==? int 0 then Ok (VNum (float 0.0)) else
  q <- truediv sales_value target_value ;;
  let achievement := q * int 100 in
  let rate := float 0.0 in
  let rate :=
    if (int 50 <=? achievement) && (achievement <? int 80) then float 0.015
    else if (int 80 <=? achievement) && (achievement <? int 100) then float 0.02
    else if (int 100 <=? achievement) && (achievement <? int 110) then float 0.04
    else if int 110 <=? achievement then float 0.08
    else rate in
  Ok (VTuple [sales_value * rate; rate * int 100; achievement]).

Definition calculate_commission_waba (sales_value : N) : N :=
  sales_value * float 0.10.

(** *** Data frame *)

(** A row of the sales frame: the columns the processing block reads. *)
Record row : Type := { tipo : string; valor : N }.

(** [str.lower()] on the letters A-Z. *)
Definition lower_ascii (c : ascii) : ascii :=
  let n := nat_of_ascii c in
  if (Nat.leb 65 n && Nat.leb n 90)%bool then ascii_of_nat (n + 32) else c.

Fixpoint lower (s : string) : string :=
  match s with
  | EmptyString => EmptyString
  | String c s' => String (lower_ascii c) (lower s')
  end.

(** [.sum()] of a column: zero for no rows. *)
Definition sum (xs : list N) : N := fold_left add xs (int 0).

(** [df[df['tipo'].astype(str).str.lower() == name]['valor'].sum()] *)
Definition sum_of_type (name : string) (df : list row) : N :=
  sum (map valor (filter (fun r => String.eqb (lower (tipo r)) name) df)).

(** *** Processing block (app.py, lines 75-87) *)

(** The variables the block binds and the dashboard then shows. *)
Record metrics : Type := {
  val_standard : N;
  val_waba : N;
  val_trial : N;
  total_revenue : N;
  progress_percent : N;
  comm_standard : N;
  rate_standard : N;
  achievement : N;
  comm_waba : N;
  total_commission : N
}.

(** Lines 81-87, from the three sums of lines 77-79 and the target of the
    sidebar. *)
Definition compute_metrics (val_standard val_waba val_trial target_value : N)
  : result metrics :=
  let total_revenue := val_standard + val_waba + val_trial in
  progress_percent <-
    (if int 0 <? target_value
     then q <- truediv total_revenue target_value ;; Ok (q * int 100)
     else Ok (int 0)) ;;
  v <- calculate_commission_standard val_standard target_value ;;
  '(comm_standard, rate_standard, achievement) <- unpack3 v ;;
  let comm_waba := calculate_commission_waba val_waba in
  let total_commission := comm_standard + comm_waba in
  Ok {| val_standard := val_standard; val_waba := val_waba;
        val_trial := val_trial; total_revenue := total_revenue;
        progress_percent := progress_percent;
        comm_standard := comm_standard; rate_standard := rate_standard;
        achievement := achievement; comm_waba := comm_waba;
        total_commission := total_commission |}.

(** [if not df.empty: ... else: st.warning(...)]: no metrics for a frame
    without rows. *)
Definition processing (df : list row) (target_value : N)
  : result (option metrics) :=
  match df with
  | [] => Ok None
  | _ =>
    m <- compute_metrics (sum_of_type "standard" df) (sum_of_type "waba" df)
                         (sum_of_type "trial" df) target_value ;;
    Ok (Some m)
  end.

End Script.

Arguments row N : clear implicits.
Arguments metrics N : clear implicits.

(** ** Texts (app.py, lines 25-26 and 60) *)

Section Text.

Local Open Scope string_scope.

(** [s.replace(old, new)]: every occurrence of [old], found from the left
    and without overlap, becomes [new].  [skip] counts the characters of an
    occurrence still to pass over. *)
Fixpoint replace_from (old new : string) (skip : nat) (s : string) : string :=
  match s with
  | EmptyString => EmptyString
  | String c s' =>
    match skip with
    | S k => replace_from old new k s'
    | O =>
      if prefix old s
      then new ++ replace_from old new (String.length old - 1) s'
      else String c (replace_from old new 0 s')
    end
  end.

Fixpoint insert_after_each (new s : string) : string :=
  match s with
  | EmptyString => EmptyString
  | String c s' => String c (new ++ insert_after_each new s')
  end.

(** An empty [old] occurs before every character and at the end. *)
Definition str_replace (old new s : string) : string :=
  match old with
  | EmptyString => new ++ insert_after_each new s
  | _ => replace_from old new 0 s
  end.

(** Rounding to the nearest integer, a tie going to the even one. *)
Definition round_half_even (q : Q) : Z :=
  let n := Qnum q in
  let d := Zpos (Qden q) in
  let f := (n / d)%Z in
  match (2 * (n mod d) ?= d)%Z with
  | Lt => f
  | Gt => (f + 1)%Z
  | Eq => if Z.even f then f else (f + 1)%Z
  end.

(** The decimal digits of a natural number. *)
Definition digits (n : Z) : string :=
  NilZero.string_of_uint (N.to_uint (Z.to_N n)).

Definition digit (n : Z) : ascii := ascii_of_N (48 + Z.to_N n).

Definition two_digits (n : Z) : string :=
  String (digit (n / 10)) (String (digit (n mod 10)) EmptyString).

(** A separator after every third character of a text read from its end,
    where characters follow. *)
Fixpoint group3_rev (sep : ascii) (ds : list ascii) : list ascii :=
  match ds with
  | a :: b :: c :: (_ :: _) as rest => a :: b :: c :: sep :: group3_rev sep rest
  | _ => ds
  end.

Definition group3 (sep : ascii) (ds : string) : string :=
  string_of_list_ascii (rev (group3_rev sep (rev (list_ascii_of_string ds)))).

(** The format [,.2f] of a finite number given by its sign and its
    magnitude: the magnitude rounded to hundredths, the integer digits in
    groups of three with commas, a point and two decimals.  The sign is the
    one of the number, also when the rounded magnitude is zero. *)
Definition decimal_2f (negative : bool) (magnitude : Q) : string :=
  let cents := round_half_even (magnitude * 100) in
  (if negative then "-" else "")
  ++ group3 "," (digits (cents / 100)) ++ "." ++ two_digits (cents mod 100).

(** Numbers that [f"{value:,.2f}"] formats. *)
Class Formats (N : Type) : Type := { format_2f : N -> string }.

#[export] Instance Q_Formats : Formats Q := {
  format_2f := fun value => decimal_2f (negb (Qle_bool 0 value)) (Qabs value)
}.

(** [format_brl] (app.py, lines 25-26). *)
Definition format_brl {N : Type} `{Formats N} (value : N) : string :=
  str_replace "X" "."
    (str_replace "." "," (str_replace "," "X" ("R$ " ++ format_2f value))).

(** The cleaning of a text of the column [valor] of an uploaded sheet
    (line 60), before [astype(float)] reads it:
    [.str.replace('R$', '').str.replace('.', '').str.replace(',', '.')],
    each pattern taken literally, as pandas 2 does by default. *)
Definition clean_valor_text (s : string) : string :=
  str_replace "," "." (str_replace "." "" (str_replace "R$" "" s)).

(** *** What the theorems on texts are stated with *)

Fixpoint map_chars (f : ascii -> ascii) (s : string) : string :=
  match s with
  | EmptyString => EmptyString
  | String c s' => String (f c) (map_chars f s')
  end.

(** What the three replacements of [format_brl] do to one character. *)
Definition swap_separators (c : ascii) : ascii :=
  if Ascii.eqb c "," then "."%char
  else if Ascii.eqb c "." then ","%char
  else if Ascii.eqb c "X" then "."%char
  else c.

Fixpoint filter_chars (f : ascii -> bool) (s : string) : string :=
  match s with
  | EmptyString => EmptyString
  | String c s' => if f c then String c (filter_chars f s') else filter_chars f s'
  end.

Definition is_digit (c : ascii) : bool :=
  (48 <=? N_of_ascii c)%N && (N_of_ascii c <=? 57)%N.

Definition all_digits (s : string) : Prop :=
  Forall (fun c => is_digit c = true) (list_ascii_of_string s).

End Text.

(** ** The script on IEEE binary64 numbers *)

Module Binary64.

Definition prec : Z := 53.
Definition emax : Z := 1024.

(** An integer as a double (exact for the integers used here). *)
Definition of_Z (z : Z) : spec_float := binary_normalize prec emax z 0 false.

(** A decimal literal [n/d] is read as the double nearest to it; the
    correctly rounded quotient of [n] and [d] is that double when both are
    doubles themselves. *)
Definition of_decimal (q : Q) : spec_float :=
  SFdiv prec emax (of_Z (Qnum q)) (of_Z (Zpos (Qden q))).

#[export] Instance binary64_Number : Number spec_float := {
  int := of_Z;
  float := of_decimal;
  add := SFadd prec emax;
  mul := SFmul prec emax;
  div := SFdiv prec emax;
  eqb := SFeqb;
  leb := SFleb;
  ltb := SFltb
}.

(** The value of a finite double of mantissa [m] and exponent [e]. *)
Definition Q_of_finite (m : positive) (e : Z) : Q :=
  match e with
  | Z0 => Zpos m # 1
  | Zpos k => (Zpos m * 2 ^ Zpos k) # 1
  | Zneg k => Zpos m # (2 ^ k)
  end.

(** [,.2f] on a double: the exact value is what gets rounded; the sign is
    the sign bit; not-a-number and the infinities have their names. *)
#[export] Instance binary64_Formats : Formats spec_float := {
  format_2f := fun value =>
    match value with
    | S754_zero s => decimal_2f s 0
    | S754_finite s m e => decimal_2f s (Q_of_finite m e)
    | S754_infinity s => if s then "-inf" else "inf"
    | S754_nan => "nan"
    end%string
}.

End Binary64.

(** ** The tier table and the scenario of the specification *)

Local Open Scope Q_scope.

(** The commission tiers as the specification lists them: half-open bands of
    the achievement percentage [lo, hi), the last one unbounded, each with
    its rate. *)
Definition CommissionTier : list (Q * option Q * Q) :=
  [ (50, Some 80, 0.015); (80, Some 100, 0.02);
    (100, Some 110, 0.04); (110, None, 0.08) ].

Definition in_band (a : Q) (band : Q * option Q * Q) : bool :=
  let '(lo, hi, _) := band in
  Qle_bool lo a && match hi with Some h => negb (Qle_bool h a) | None => true end.

(** The rate of the band that holds [a]; below every band the rate is zero. *)
Definition tier_rate (a : Q) : Q :=
  match find (in_band a) CommissionTier with
  | Some (_, _, rate) => rate
  | None => 0.0
  end.

(** Records [Standard:12000, Standard:5000, WABA:3000, Trial:1000]. *)
Definition scenario_records {N : Type} `{Number N} : list (row N) :=
  [ {| tipo := "Standard"; valor := int 12000 |};
    {| tipo := "Standard"; valor := int 5000 |};
    {| tipo := "WABA"; valor := int 3000 |};
    {| tipo := "Trial"; valor := int 1000 |} ].

(** The rows the script builds for itself when no file is uploaded
    (app.py, lines 66-70). *)
Definition demo_data {N : Type} `{Number N} : list (row N) :=
  [ {| tipo := "Standard"; valor := int 5000 |};
    {| tipo := "Standard"; valor := int 12000 |};
    {| tipo := "WABA"; valor := int 3000 |};
    {| tipo := "Trial"; valor := int 1000 |};
    {| tipo := "Standard"; valor := int 8000 |};
    {| tipo := "WABA"; valor := int 5000 |} ].

(** ** The progress display (app.py, lines 144-153) *)

(** What the script shows under the progress bar. *)
Inductive goal_message : Type :=
| MetaBatida       (* balloons, "Parabens! Meta batida!" *)
| QuaseLa          (* warning, "Quase la! Falta pouco para a faixa de 4%." *)
| ContinueFocado.  (* info, "Continue focado ..." *)

Section Display.

Context {N : Type} `{Number N}.

Local Open Scope py_scope.

(** [min(a, b)]: the first argument unless the second is smaller. *)
Definition py_min (a b : N) : N := if b <? a then b else a.

(** The argument of [st.progress]: [min(progress_percent / 100, 1.0)]. *)
Definition progress_bar_value (progress_percent : N) : result N :=
  q <- truediv progress_percent (int 100) ;;
  Ok (py_min q (float 1.0)).

(** The [if progress_percent >= 100: ... elif progress_percent >= 80: ...
    else: ...] of lines 147-153. *)
Definition message_of_progress (progress_percent : N) : goal_message :=
  if int 100 <=? progress_percent then MetaBatida
  else if int 80 <=? progress_percent then QuaseLa
  else ContinueFocado.


End Display.

(** A row whose type, in lower case, is one of the three the block sums. *)
Definition known_type {N : Type} (r : row N) : bool :=
  existsb (String.eqb (lower (tipo r))) ["standard"; "waba"; "trial"]%string.

(** * Properties of the script on exact rationals *)

(** ** Comparisons of [Q] *)

Lemma leb_true (x y : Q) : Qle_bool x y = true <-> x <= y.
Proof. apply Qle_bool_iff. Qed.

Lemma leb_false (x y : Q) : Qle_bool x y = false <-> y < x.
Proof.
  rewrite <- not_true_iff_false, Qle_bool_iff.
  split; [apply Qnot_le_lt | apply Qlt_not_le].
Qed.

Lemma eqb_false (x y : Q) : Qeq_bool x y = false <-> ~ x == y.
Proof. rewrite <- not_true_iff_false, Qeq_bool_iff. tauto. Qed.

(** Turns every boolean comparison of the goal and context into the order
    fact it decides. *)
Ltac order_cases :=
  repeat match goal with
  | |- context [Qle_bool ?x ?y] =>
      let E := fresh "E" in
      destruct (Qle_bool x y) eqn:E;
      [ apply leb_true in E | apply leb_false in E ]
  | |- context [Qeq_bool ?x ?y] =>
      let E := fresh "E" in
      destruct (Qeq_bool x y) eqn:E;
      [ apply Qeq_bool_iff in E | apply eqb_false in E ]
  end.

(** ** What [calculate_commission_standard] returns *)

Lemma standard_zero_target (s t : Q) :
  t == 0 -> calculate_commission_standard s t = Ok (VNum 0.0).
Proof.
  intros Ht. unfold calculate_commission_standard. cbn. unfold inject_Z.
  apply Qeq_bool_iff in Ht. now rewrite Ht.
Qed.

Lemma standard_nonzero_target (s t : Q) :
  ~ t == 0 ->
  calculate_commission_standard s t
  = Ok (VTuple [s * tier_rate (s / t * 100); tier_rate (s / t * 100) * 100;
                s / t * 100]).
Proof.
  intros Ht. unfold calculate_commission_standard, truediv. cbn.
  unfold inject_Z. apply eqb_false in Ht. rewrite Ht.
  unfold tier_rate. cbn.
  repeat match goal with
  | |- context [Qle_bool ?x ?y] => destruct (Qle_bool x y)
  end; reflexivity.
Qed.


(** The rate of the table, band by band. *)
Lemma tier_rate_bands (a : Q) :
  (a < 50 -> tier_rate a = 0.0) /\
  (50 <= a /\ a < 80 -> tier_rate a = 0.015) /\
  (80 <= a /\ a < 100 -> tier_rate a = 0.02) /\
  (100 <= a /\ a < 110 -> tier_rate a = 0.04) /\
  (110 <= a -> tier_rate a = 0.08).
Proof.
  unfold tier_rate. cbn. order_cases; cbn;
    repeat split; intros; try reflexivity; lra.
Qed.

Lemma tier_rate_monotone (a b : Q) : a <= b -> tier_rate a <= tier_rate b.
Proof.
  intros Hab. unfold tier_rate. cbn. order_cases; cbn; lra.
Qed.

Lemma tier_rate_nonneg (a : Q) : 0 <= tier_rate a.
Proof. unfold tier_rate. cbn. order_cases; cbn; lra. Qed.

(** ** Quotients *)

Lemma achievement_le (r1 r2 t : Q) :
  0 < t -> r1 <= r2 -> r1 / t * 100 <= r2 / t * 100.
Proof.
  intros Ht Hr. unfold Qdiv.
  apply Qmult_le_compat_r; [ | lra ].
  apply Qmult_le_compat_r; [ exact Hr | ].
  apply Qlt_le_weak, Qinv_lt_0_compat, Ht.
Qed.

Lemma achievement_nonpos (s t : Q) : 0 <= s -> t < 0 -> s / t * 100 <= 0.
Proof.
  intros Hs Ht.
  assert (H : 0 <= s / - t) by (apply Qle_shift_div_l; lra).
  setoid_replace (s / t) with (- (s / - t)) by (field; lra).
  lra.
Qed.

(** ** What the processing block computes *)

Lemma compute_metrics_nonzero_target (s w tr t : Q) :
  ~ t == 0 ->
  compute_metrics s w tr t
  = Ok {| val_standard := s; val_waba := w; val_trial := tr;
          total_revenue := s + w + tr;
          progress_percent :=
            if Qle_bool t 0 then 0 else (s + w + tr) / t * 100;
          comm_standard := s * tier_rate (s / t * 100);
          rate_standard := tier_rate (s / t * 100) * 100;
          achievement := s / t * 100;
          comm_waba := w * 0.10;
          total_commission := s * tier_rate (s / t * 100) + w * 0.10 |}.
Proof.
  intros Ht. unfold compute_metrics.
  rewrite (standard_nonzero_target s t Ht).
  unfold truediv, calculate_commission_waba. cbn. unfold inject_Z.
  apply eqb_false in Ht. rewrite Ht.
  destruct (Qle_bool t 0); reflexivity.
Qed.

Lemma compute_metrics_zero_target (s w tr t : Q) :
  t == 0 -> compute_metrics s w tr t = Raise TypeError.
Proof.
  intros Ht. unfold compute_metrics.
  rewrite (standard_zero_target s t Ht). cbn. unfold inject_Z.
  assert (E : Qle_bool t 0 = true) by (apply leb_true; lra).
  now rewrite E.
Qed.

Lemma processing_rows (r : row Q) (df : list (row Q)) (t : Q) :
  processing (r :: df) t
  = bind (compute_metrics (sum_of_type "standard" (r :: df))
            (sum_of_type "waba" (r :: df)) (sum_of_type "trial" (r :: df)) t)
         (fun m => Ok (Some m)).
Proof. reflexivity. Qed.

(** ** Target of zero *)

(** C1 (the code departs from the claim).  With a target of zero
    [calculate_commission_standard] divides nothing and returns the bare
    number [0.0], for every sales value; the processing block, which unpacks
    three values from that result, then stops with a [TypeError], for any
    three sums and in particular on the script's own demo rows.  No
    achievement of zero and no commission result come out. *)
Theorem zero_target_breaks_unpacking (sales w tr : Q) :
  calculate_commission_standard sales 0 = Ok (VNum 0.0) /\
  compute_metrics sales w tr 0 = Raise TypeError /\
  processing demo_data 0 = Raise TypeError.
Proof.
  split; [ | split ].
  - apply standard_zero_target. reflexivity.
  - apply compute_metrics_zero_target. reflexivity.
  - unfold demo_data. rewrite processing_rows.
    rewrite compute_metrics_zero_target; reflexivity.
Qed.

(** ** Negative target *)

(** C2, as stated, fails: for sales 1000 and target -50000 the function
    raises nothing; it returns commission 0, rate 0 and achievement -2. *)
Lemma negative_target_is_not_rejected :
  (exists c p a,
     calculate_commission_standard 1000 (-50000) = Ok (VTuple [c; p; a]) /\
     c == 0 /\ p == 0 /\ a == -2) /\
  ~ (forall sales target : Q, target < 0 ->
       exists e, calculate_commission_standard sales target = Raise e).
Proof.
  split.
  - do 3 eexists. split; [ vm_compute; reflexivity | ].
    repeat split; reflexivity.
  - intros H. destruct (H 1000 (-50000)) as [e He]; [ reflexivity | ].
    vm_compute in He. discriminate He.
Qed.

(** C2 (amended).  For a negative target the function raises nothing: it
    returns the triple of commission, rate in percent and achievement, the
    achievement being sales / target * 100 and the rate the one of its tier;
    for sales that are not negative that achievement is at most zero, so the
    rate and the commission are zero.  The processing block completes too and
    reports a progress of zero. *)
Theorem negative_target_returns_triple (sales target : Q) :
  target < 0 ->
  let a := sales / target * 100 in
  calculate_commission_standard sales target
  = Ok (VTuple [sales * tier_rate a; tier_rate a * 100; a]) /\
  (0 <= sales -> a <= 0 /\ tier_rate a = 0.0 /\ sales * tier_rate a == 0) /\
  (forall w tr, exists m,
     compute_metrics sales w tr target = Ok m /\ progress_percent m = 0).
Proof.
  intros Ht a. assert (Hne : ~ target == 0) by lra.
  split; [ | split ].
  - apply standard_nonzero_target, Hne.
  - intros Hs.
    assert (Ha : a <= 0) by (apply achievement_nonpos; assumption).
    assert (Hr : tier_rate a = 0.0)
      by (apply (tier_rate_bands a); lra).
    rewrite Hr. repeat split; [ exact Ha | lra ].
  - intros w tr. eexists. split.
    + apply compute_metrics_nonzero_target, Hne.
    + cbn. assert (E : Qle_bool target 0 = true) by (apply leb_true; lra).
      now rewrite E.
Qed.

Lemma negative_target_returns_triple_witness :
  -50000 < 0 /\
  calculate_commission_standard 1000 (-50000)
  = Ok (VTuple [1000 * tier_rate (1000 / -50000 * 100);
                tier_rate (1000 / -50000 * 100) * 100;
                1000 / -50000 * 100]).
Proof.
  split; [ reflexivity | ].
  apply (negative_target_returns_triple 1000 (-50000)).
  reflexivity.
Defined.

(** ** The tiers *)

(** C3.  Whenever the function computes an achievement [a] that is not
    negative (any sales and any target other than zero), the rate it applies
    is the one of the half-open band that holds [a]: 0 below 50, 1.5% on
    [50, 80), 2% on [80, 100), 4% on [100, 110) and 8% from 110 on; so
    exactly 80 gets 2% and exactly 110 gets 8%.  The returned triple is the
    commission at that rate, the rate in percent and the achievement. *)
Theorem tier_lookup_closed_open (sales target a : Q) :
  ~ target == 0 ->
  sales / target * 100 == a ->
  0 <= a ->
  exists rate,
    calculate_commission_standard sales target
    = Ok (VTuple [sales * rate; rate * 100; sales / target * 100]) /\
    (a < 50 -> rate == 0) /\
    (50 <= a /\ a < 80 -> rate == 0.015) /\
    (80 <= a /\ a < 100 -> rate == 0.02) /\
    (100 <= a /\ a < 110 -> rate == 0.04) /\
    (110 <= a -> rate == 0.08) /\
    (a == 80 -> rate == 0.02) /\
    (a == 110 -> rate == 0.08).
Proof.
  intros Ht Ha _.
  exists (tier_rate (sales / target * 100)).
  split; [ apply standard_nonzero_target, Ht | ].
  destruct (tier_rate_bands (sales / target * 100)) as (B0 & B1 & B2 & B3 & B4).
  repeat split; intros H;
    [ rewrite B0 | rewrite B1 | rewrite B2 | rewrite B3 | rewrite B4
    | rewrite B2 | rewrite B4 ];
    try reflexivity; lra.
Qed.

Lemma tier_lookup_closed_open_witness :
  exists rate,
    calculate_commission_standard 40000 50000
    = Ok (VTuple [40000 * rate; rate * 100; 40000 / 50000 * 100]) /\
    rate == 0.02.
Proof.
  destruct (tier_lookup_closed_open 40000 50000 80) as (rate & E & H);
    [ vm_compute; discriminate | vm_compute; reflexivity
    | vm_compute; discriminate | ].
  exists rate. split; [ exact E | ].
  apply H. vm_compute. reflexivity.
Defined.

(** ** The Standard scheme *)

(** C4.  For Standard revenue that is not negative and a positive target,
    the function returns the commission, the rate in percent and the
    achievement, where the achievement is the Standard revenue over the
    target times 100, the rate is the tier rate at that achievement and the
    commission is the Standard revenue times the rate.  In the processing
    block these three are the same whatever the WABA and Trial sums are,
    while the progress shown is computed from all three sums. *)
Theorem standard_commission_from_standard_revenue
  (standardRevenue targetValue : Q) :
  0 <= standardRevenue ->
  0 < targetValue ->
  let standardAchievement := standardRevenue / targetValue * 100 in
  let rate := tier_rate standardAchievement in
  calculate_commission_standard standardRevenue targetValue
  = Ok (VTuple [standardRevenue * rate; rate * 100; standardAchievement]) /\
  forall wabaRevenue trialRevenue, exists m,
    compute_metrics standardRevenue wabaRevenue trialRevenue targetValue
    = Ok m /\
    comm_standard m = standardRevenue * rate /\
    rate_standard m = rate * 100 /\
    achievement m = standardAchievement /\
    progress_percent m
    = (standardRevenue + wabaRevenue + trialRevenue) / targetValue * 100.
Proof.
  intros _ Ht a rate. assert (Hne : ~ targetValue == 0) by lra.
  split; [ apply standard_nonzero_target, Hne | ].
  intros w tr. eexists. split.
  - apply compute_metrics_nonzero_target, Hne.
  - cbn. assert (E : Qle_bool targetValue 0 = false) by (apply leb_false, Ht).
    rewrite E. repeat split.
Qed.

Lemma standard_commission_from_standard_revenue_witness :
  0 <= 45000 /\ 0 < 50000 /\
  calculate_commission_standard 45000 50000
  = Ok (VTuple [45000 * tier_rate (45000 / 50000 * 100);
                tier_rate (45000 / 50000 * 100) * 100;
                45000 / 50000 * 100]).
Proof.
  split; [ vm_compute; discriminate | split; [ reflexivity | ] ].
  apply (standard_commission_from_standard_revenue 45000 50000).
  - vm_compute; discriminate.
  - reflexivity.
Defined.

(** ** The scenario of four records *)

(** C5.  On the records Standard 12000, Standard 5000, WABA 3000 and
    Trial 1000 with a target of 50000 the processing block yields Standard
    revenue 17000, Standard achievement 34, rate 0, Standard commission 0,
    WABA commission 300, total revenue 21000 and total commission 300. *)
Theorem scenario_four_records :
  exists m,
    processing scenario_records 50000 = Ok (Some m) /\
    val_standard m == 17000 /\
    achievement m == 34 /\
    rate_standard m == 0 /\
    comm_standard m == 0 /\
    comm_waba m == 300 /\
    total_revenue m == 21000 /\
    total_commission m == 300.
Proof.
  unfold scenario_records. rewrite processing_rows.
  rewrite compute_metrics_nonzero_target by (vm_compute; discriminate).
  eexists. split; [ reflexivity | ].
  cbn [val_standard achievement rate_standard comm_standard comm_waba
       total_revenue total_commission].
  repeat split; vm_compute; reflexivity.
Qed.

(** ** The WABA scheme *)

(** C6.  The WABA commission is the WABA revenue times 0.10: the function
    takes no target and no achievement, and in the processing block the WABA
    commission is that product for every Standard sum, Trial sum and target
    the block completes on, which it does for every target other than
    zero. *)
Theorem waba_commission_flat (wabaRevenue : Q) :
  calculate_commission_waba wabaRevenue = wabaRevenue * 0.10 /\
  (forall s tr target m,
     compute_metrics s wabaRevenue tr target = Ok m ->
     comm_waba m = wabaRevenue * 0.10) /\
  (forall s tr target, ~ target == 0 ->
     exists m, compute_metrics s wabaRevenue tr target = Ok m).
Proof.
  split; [ reflexivity | split ].
  - intros s tr target m Hm.
    destruct (Qeq_dec target 0) as [Hz | Hnz].
    + rewrite compute_metrics_zero_target in Hm by exact Hz. discriminate Hm.
    + rewrite compute_metrics_nonzero_target in Hm by exact Hnz.
      injection Hm as <-. reflexivity.
  - intros s tr target Hnz. eexists.
    apply compute_metrics_nonzero_target, Hnz.
Qed.

Lemma waba_commission_flat_witness :
  exists m,
    compute_metrics 17000 3000 1000 50000 = Ok m /\
    comm_waba m = 3000 * 0.10.
Proof.
  destruct (waba_commission_flat 3000) as (_ & Hflat & Hruns).
  destruct (Hruns 17000 1000 50000) as [m Hm]; [ vm_compute; discriminate | ].
  exists m. split; [ exact Hm | exact (Hflat _ _ _ _ Hm) ].
Defined.

(** ** Totals of the processing block *)

(** A run that yields metrics had rows, a target other than zero, and
    metrics that are the ones of [compute_metrics_nonzero_target]. *)
Lemma processing_yields (df : list (row Q)) (t : Q) (m : metrics Q) :
  processing df t = Ok (Some m) ->
  df <> [] /\ ~ t == 0 /\
  compute_metrics (sum_of_type "standard" df) (sum_of_type "waba" df)
                  (sum_of_type "trial" df) t = Ok m.
Proof.
  destruct df as [ | r df ]; [ discriminate | ].
  rewrite processing_rows. intros Hm.
  split; [ discriminate | ].
  destruct (Qeq_dec t 0) as [Hz | Hnz].
  - rewrite compute_metrics_zero_target in Hm by exact Hz. discriminate Hm.
  - split; [ exact Hnz | ].
    destruct (compute_metrics _ _ _ t) as [ m' | e ]; cbn in Hm;
      [ injection Hm as -> ; reflexivity | discriminate Hm ].
Qed.

Lemma processing_completes (df : list (row Q)) (t : Q) :
  df <> [] -> ~ t == 0 -> exists m, processing df t = Ok (Some m).
Proof.
  intros Hdf Ht. destruct df as [ | r df ]; [ contradiction | ].
  rewrite processing_rows, compute_metrics_nonzero_target by exact Ht.
  eexists. reflexivity.
Qed.

(** C7.  For every frame and target, the metrics of a run have a total
    commission that is the Standard commission plus the WABA commission,
    the first returned by [calculate_commission_standard] on the Standard
    sum and the second by [calculate_commission_waba] on the WABA sum; with
    any other Trial sum in place of the frame's the block yields the same
    total commission.  A run yields metrics for every frame with rows and
    every target other than zero. *)
Theorem total_commission_standard_plus_waba
  (df : list (row Q)) (target : Q) :
  (forall m, processing df target = Ok (Some m) ->
     total_commission m = comm_standard m + comm_waba m /\
     calculate_commission_standard (sum_of_type "standard" df) target
     = Ok (VTuple [comm_standard m; rate_standard m; achievement m]) /\
     comm_waba m = calculate_commission_waba (sum_of_type "waba" df) /\
     forall trialRevenue, exists m',
       compute_metrics (sum_of_type "standard" df) (sum_of_type "waba" df)
                       trialRevenue target = Ok m' /\
       total_commission m' = total_commission m) /\
  (df <> [] -> ~ target == 0 ->
   exists m, processing df target = Ok (Some m)).
Proof.
  split; [ | apply processing_completes ].
  intros m Hm. apply processing_yields in Hm. destruct Hm as (_ & Ht & Hm).
  rewrite compute_metrics_nonzero_target in Hm by exact Ht.
  injection Hm as <-. cbn.
  split; [ reflexivity | split; [ | split; [ reflexivity | ] ] ].
  - apply standard_nonzero_target, Ht.
  - intros tr'. eexists. split.
    + apply compute_metrics_nonzero_target, Ht.
    + reflexivity.
Qed.

Lemma total_commission_standard_plus_waba_witness :
  exists m,
    processing scenario_records 50000 = Ok (Some m) /\
    total_commission m = comm_standard m + comm_waba m.
Proof.
  destruct (total_commission_standard_plus_waba scenario_records 50000)
    as [Hinv Hruns].
  destruct Hruns as [m Hm]; [ discriminate | vm_compute; discriminate | ].
  exists m. split; [ exact Hm | apply (Hinv m Hm) ].
Defined.

(** C8.  For every frame and target, the metrics of a run have a total
    revenue that is the sum of the three totals per type, each of them the
    sum of the values of the rows of that type.  A run yields metrics for
    every frame with rows and every target other than zero. *)
Theorem total_revenue_sum_of_types (df : list (row Q)) (target : Q) :
  (forall m, processing df target = Ok (Some m) ->
     total_revenue m = val_standard m + val_waba m + val_trial m /\
     val_standard m = sum_of_type "standard" df /\
     val_waba m = sum_of_type "waba" df /\
     val_trial m = sum_of_type "trial" df) /\
  (df <> [] -> ~ target == 0 ->
   exists m, processing df target = Ok (Some m)).
Proof.
  split; [ | apply processing_completes ].
  intros m Hm. apply processing_yields in Hm. destruct Hm as (_ & Ht & Hm).
  rewrite compute_metrics_nonzero_target in Hm by exact Ht.
  injection Hm as <-. cbn. repeat split.
Qed.

Lemma total_revenue_sum_of_types_witness :
  exists m,
    processing scenario_records 50000 = Ok (Some m) /\
    total_revenue m = val_standard m + val_waba m + val_trial m.
Proof.
  destruct (total_revenue_sum_of_types scenario_records 50000)
    as [Hinv Hruns].
  destruct Hruns as [m Hm]; [ discriminate | vm_compute; discriminate | ].
  exists m. split; [ exact Hm | apply (Hinv m Hm) ].
Defined.

(** ** Monotonicity *)

(** C9.  For a fixed positive target the achievement the function returns
    does not decrease when the Standard revenue grows: for revenues
    [0 <= r1 <= r2] the two calls return achievements [r1 / target * 100]
    and [r2 / target * 100], the first at most the second. *)
Theorem achievement_monotone (r1 r2 target : Q) :
  0 <= r1 -> r1 <= r2 -> 0 < target ->
  exists c1 p1 a1 c2 p2 a2,
    calculate_commission_standard r1 target = Ok (VTuple [c1; p1; a1]) /\
    calculate_commission_standard r2 target = Ok (VTuple [c2; p2; a2]) /\
    a1 = r1 / target * 100 /\
    a2 = r2 / target * 100 /\
    a1 <= a2.
Proof.
  intros _ Hr Ht. assert (Hne : ~ target == 0) by lra.
  do 6 eexists.
  split; [ apply standard_nonzero_target, Hne | ].
  split; [ apply standard_nonzero_target, Hne | ].
  split; [ reflexivity | split; [ reflexivity | ] ].
  apply achievement_le; assumption.
Qed.

Lemma achievement_monotone_witness :
  0 <= 17000 /\ 17000 <= 45000 /\ 0 < 50000 /\
  exists c1 p1 a1 c2 p2 a2,
    calculate_commission_standard 17000 50000 = Ok (VTuple [c1; p1; a1]) /\
    calculate_commission_standard 45000 50000 = Ok (VTuple [c2; p2; a2]) /\
    a1 = 17000 / 50000 * 100 /\
    a2 = 45000 / 50000 * 100 /\
    a1 <= a2.
Proof.
  assert (H0 : 0 <= 17000) by (vm_compute; discriminate).
  assert (H1 : 17000 <= 45000) by (vm_compute; discriminate).
  assert (H2 : 0 < 50000) by reflexivity.
  repeat (split; [ assumption | ]).
  exact (achievement_monotone 17000 45000 50000 H0 H1 H2).
Defined.

(** C10.  For a fixed positive target the commission the function returns
    does not decrease when the sales value grows over the values that are
    not negative, across the tier boundaries as well, and it is never
    negative; the rate in percent does not decrease either. *)
Theorem standard_commission_monotone (s1 s2 target : Q) :
  0 <= s1 -> s1 <= s2 -> 0 < target ->
  exists c1 p1 a1 c2 p2 a2,
    calculate_commission_standard s1 target = Ok (VTuple [c1; p1; a1]) /\
    calculate_commission_standard s2 target = Ok (VTuple [c2; p2; a2]) /\
    0 <= c1 /\ c1 <= c2 /\ p1 <= p2.
Proof.
  intros Hs1 Hs Ht. assert (Hne : ~ target == 0) by lra.
  do 6 eexists.
  split; [ apply standard_nonzero_target, Hne | ].
  split; [ apply standard_nonzero_target, Hne | ].
  pose proof (achievement_le s1 s2 target Ht Hs) as Ha.
  set (a1 := s1 / target * 100) in *. set (a2 := s2 / target * 100) in *.
  clearbody a1 a2.
  unfold tier_rate. cbn. order_cases; cbn; repeat split; lra.
Qed.

Lemma standard_commission_monotone_witness :
  0 <= 45000 /\ 45000 <= 60000 /\ 0 < 50000 /\
  exists c1 p1 a1 c2 p2 a2,
    calculate_commission_standard 45000 50000 = Ok (VTuple [c1; p1; a1]) /\
    calculate_commission_standard 60000 50000 = Ok (VTuple [c2; p2; a2]) /\
    0 <= c1 /\ c1 <= c2 /\ p1 <= p2.
Proof.
  assert (H0 : 0 <= 45000) by (vm_compute; discriminate).
  assert (H1 : 45000 <= 60000) by (vm_compute; discriminate).
  assert (H2 : 0 < 50000) by reflexivity.
  repeat (split; [ assumption | ]).
  exact (standard_commission_monotone 45000 60000 50000 H0 H1 H2).
Defined.

(** ** Two more scenarios of the specification *)

(** Standard revenue 45000 against a target of 50000: achievement 90, rate
    2%, commission 900. *)
Example scenario_90_percent :
  exists c p a,
    calculate_commission_standard 45000 50000 = Ok (VTuple [c; p; a]) /\
    a == 90 /\ p == 2 /\ c == 900.
Proof.
  do 3 eexists. split; [ vm_compute; reflexivity | ].
  repeat split; reflexivity.
Qed.

(** Standard revenue 60000 against a target of 50000: achievement 120, rate
    8%, commission 4800. *)
Example scenario_120_percent :
  exists c p a,
    calculate_commission_standard 60000 50000 = Ok (VTuple [c; p; a]) /\
    a == 120 /\ p == 8 /\ c == 4800.
Proof.
  do 3 eexists. split; [ vm_compute; reflexivity | ].
  repeat split; reflexivity.
Qed.

(** * Further properties of the code *)

(** ** On any numbers *)

(** The statements of this section use nothing of the numbers but the
    operations of [Number]: they hold on rationals and on doubles alike,
    not-a-number and the infinities included. *)
Section AnyNumber.

Context {N : Type} `{Number N}.

Local Open Scope py_scope.

(** The two shapes of a result of [calculate_commission_standard]; shared by
    the statements on how the code fails. *)
Lemma standard_result_cases (sales_value target_value : N) :
  ((target_value ==? int 0) = true /\
   calculate_commission_standard sales_value target_value
   = Ok (VNum (float 0.0))) \/
  ((target_value ==? int 0) = false /\
   exists rate,
     In rate [float 0.0; float 0.015; float 0.02; float 0.04; float 0.08] /\
     calculate_commission_standard sales_value target_value
     = Ok (VTuple [sales_value * rate; rate * int 100;
                   div sales_value target_value * int 100])).
Proof.
  unfold calculate_commission_standard, truediv.
  destruct (target_value ==? int 0) eqn:E; [ left; split; reflexivity | ].
  right. split; [ reflexivity | ]. cbn.
  repeat match goal with
  | |- context [if ?b then _ else _] => destruct b; cbn
  end;
  eexists; (split; [ | reflexivity ]); cbn; tauto.
Qed.

(** [calculate_commission_standard] never raises: the division it makes is
    behind its own test of the target.  It returns the bare [0.0] exactly
    when the target compares equal to zero, and otherwise a triple whose rate
    is one of the five constants of the code. *)
Theorem standard_never_raises (sales_value target_value : N) :
  ((target_value ==? int 0) = true /\
   calculate_commission_standard sales_value target_value
   = Ok (VNum (float 0.0))) \/
  ((target_value ==? int 0) = false /\
   exists rate,
     In rate [float 0.0; float 0.015; float 0.02; float 0.04; float 0.08] /\
     calculate_commission_standard sales_value target_value
     = Ok (VTuple [sales_value * rate; rate * int 100;
                   div sales_value target_value * int 100])).
Proof. exact (standard_result_cases sales_value target_value). Qed.


End AnyNumber.

(** ** How the processing block fails, on rationals *)



(** ** The Standard scheme, in terms of sales and target *)

Lemma tier_rate_eq (a b : Q) : a == b -> tier_rate a = tier_rate b.
Proof.
  intros Hab. unfold tier_rate. cbn.
  assert (E : forall x, Qle_bool x a = Qle_bool x b)
    by (intros x; apply Qleb_comp; [ reflexivity | exact Hab ]).
  now rewrite !E.
Qed.

Lemma tier_rate_le_max (a : Q) : tier_rate a <= 0.08.
Proof. unfold tier_rate. cbn. order_cases; cbn; lra. Qed.

Lemma achievement_ge (x s t : Q) :
  0 < t -> (x <= s / t * 100 <-> x * t <= 100 * s).
Proof.
  intros Ht. split; intros Hx.
  - assert (E : 100 * s == s / t * 100 * t) by (field; lra).
    rewrite E. apply Qmult_le_compat_r; lra.
  - assert (E : x == x * t / t) by (field; lra).
    rewrite E. setoid_replace (s / t * 100) with (100 * s / t) by (field; lra).
    unfold Qdiv. apply Qmult_le_compat_r; [ exact Hx | ].
    apply Qlt_le_weak, Qinv_lt_0_compat, Ht.
Qed.

Lemma achievement_lt (x s t : Q) :
  0 < t -> (s / t * 100 < x <-> 100 * s < x * t).
Proof.
  intros Ht. pose proof (achievement_ge x s t Ht) as H.
  split; intros Hx.
  - apply Qnot_le_lt. intros Hc. apply H in Hc. lra.
  - apply Qnot_le_lt. intros Hc. apply H in Hc. lra.
Qed.

(** The bands of the rate stated on the sales; shared by the statements on
    the thresholds. *)
Lemma rate_by_share (sales target : Q) :
  0 < target ->
  exists rate,
    calculate_commission_standard sales target
    = Ok (VTuple [sales * rate; rate * 100; sales / target * 100]) /\
    (sales < 0.5 * target -> rate == 0) /\
    (0.5 * target <= sales /\ sales < 0.8 * target -> rate == 0.015) /\
    (0.8 * target <= sales /\ sales < target -> rate == 0.02) /\
    (target <= sales /\ sales < 1.1 * target -> rate == 0.04) /\
    (1.1 * target <= sales -> rate == 0.08).
Proof.
  intros Ht. exists (tier_rate (sales / target * 100)).
  split; [ apply standard_nonzero_target; lra | ].
  destruct (tier_rate_bands (sales / target * 100)) as (B0 & B1 & B2 & B3 & B4).
  pose proof (fun x => achievement_ge x sales target Ht) as G.
  pose proof (fun x => achievement_lt x sales target Ht) as L.
  repeat split; intros Hs;
    [ rewrite B0 | rewrite B1 | rewrite B2 | rewrite B3 | rewrite B4 ];
    try reflexivity; try lra;
    repeat split; try (apply G; lra); try (apply L; lra).
Qed.



(** Only the ratio of sales to target matters: with both multiplied by the
    same factor other than zero (another currency unit, say) the achievement
    and the rate stay what they were and the commission is multiplied by that
    factor. *)
Theorem standard_scale_invariant (k sales target : Q) :
  ~ k == 0 -> ~ target == 0 ->
  exists c p a c' p' a',
    calculate_commission_standard sales target = Ok (VTuple [c; p; a]) /\
    calculate_commission_standard (k * sales) (k * target)
    = Ok (VTuple [c'; p'; a']) /\
    a' == a /\ p' = p /\ c' == k * c.
Proof.
  intros Hk Ht.
  assert (Hkt : ~ k * target == 0).
  { intros Hc. apply Qmult_integral in Hc. tauto. }
  assert (Ha : k * sales / (k * target) * 100 == sales / target * 100)
    by (field; tauto).
  do 6 eexists.
  split; [ apply standard_nonzero_target, Ht | ].
  split; [ apply standard_nonzero_target, Hkt | ].
  rewrite (tier_rate_eq _ _ Ha).
  split; [ exact Ha | split; [ reflexivity | ring ] ].
Qed.

Lemma standard_scale_invariant_witness :
  exists c p a c' p' a',
    calculate_commission_standard 45000 50000 = Ok (VTuple [c; p; a]) /\
    calculate_commission_standard (100 * 45000) (100 * 50000)
    = Ok (VTuple [c'; p'; a']) /\
    a' == a /\ p' = p /\ c' == 100 * c.
Proof.
  apply (standard_scale_invariant 100 45000 50000);
    vm_compute; discriminate.
Defined.

(** For sales that are not negative the commission lies between zero and 8%
    of the sales, whatever the target (other than zero), and the rate shown
    between 0 and 8. *)
Theorem standard_commission_bounds (sales target : Q) :
  0 <= sales -> ~ target == 0 ->
  exists c p a,
    calculate_commission_standard sales target = Ok (VTuple [c; p; a]) /\
    0 <= c /\ c <= 0.08 * sales /\ 0 <= p /\ p <= 8.
Proof.
  intros Hs Ht. do 3 eexists.
  split; [ apply standard_nonzero_target, Ht | ].
  pose proof (tier_rate_nonneg (sales / target * 100)) as H0.
  pose proof (tier_rate_le_max (sales / target * 100)) as H1.
  set (r := tier_rate (sales / target * 100)) in *. clearbody r.
  repeat split; try lra.
  - apply Qmult_le_0_compat; assumption.
  - rewrite (Qmult_comm sales r). apply Qmult_le_compat_r; assumption.
Qed.

Lemma standard_commission_bounds_witness :
  exists c p a,
    calculate_commission_standard 60000 50000 = Ok (VTuple [c; p; a]) /\
    0 <= c /\ c <= 0.08 * 60000 /\ 0 <= p /\ p <= 8.
Proof.
  apply (standard_commission_bounds 60000 50000); vm_compute; discriminate.
Defined.

(** The rate applies to the whole of the sales, not to the part above a
    threshold, so the commission jumps at the target: sales below a positive
    target earn less than 2% of the target, sales from the target on at least
    4% of it, more than twice as much. *)
Theorem commission_jumps_at_target (s1 s2 target : Q) :
  0 <= s1 -> s1 < target -> target <= s2 ->
  exists c1 p1 a1 c2 p2 a2,
    calculate_commission_standard s1 target = Ok (VTuple [c1; p1; a1]) /\
    calculate_commission_standard s2 target = Ok (VTuple [c2; p2; a2]) /\
    c1 < 0.02 * target /\ 0.04 * target <= c2 /\ 2 * c1 < c2.
Proof.
  intros H1 H1t H2.
  assert (Ht : 0 < target) by lra.
  destruct (rate_by_share s1 target Ht)
    as (r1 & E1 & A0 & A1 & A2 & A3 & A4).
  destruct (rate_by_share s2 target Ht)
    as (r2 & E2 & B0 & B1 & B2 & B3 & B4).
  exists (s1 * r1), (r1 * 100), (s1 / target * 100),
         (s2 * r2), (r2 * 100), (s2 / target * 100).
  split; [ exact E1 | split; [ exact E2 | ] ].
  assert (C1 : s1 * r1 < 0.02 * target).
  { destruct (Qlt_le_dec s1 (0.5 * target)) as [L | L].
    - rewrite (A0 L). lra.
    - destruct (Qlt_le_dec s1 (0.8 * target)) as [L' | L'].
      + rewrite (A1 (conj L L')). lra.
      + rewrite (A2 (conj L' H1t)). lra. }
  assert (C2 : 0.04 * target <= s2 * r2).
  { destruct (Qlt_le_dec s2 (1.1 * target)) as [L | L].
    - rewrite (B3 (conj H2 L)). lra.
    - rewrite (B4 L). lra. }
  repeat split; lra.
Qed.

Lemma commission_jumps_at_target_witness :
  exists c1 p1 a1 c2 p2 a2,
    calculate_commission_standard 49999 50000 = Ok (VTuple [c1; p1; a1]) /\
    calculate_commission_standard 50000 50000 = Ok (VTuple [c2; p2; a2]) /\
    c1 < 0.02 * 50000 /\ 0.04 * 50000 <= c2 /\ 2 * c1 < c2.
Proof.
  apply (commission_jumps_at_target 49999 50000 50000);
    first [ reflexivity | vm_compute; discriminate ].
Defined.

(** ** The sums per type *)

Lemma fold_plus_acc (xs : list Q) (a : Q) :
  fold_left Qplus xs a == a + fold_left Qplus xs 0.
Proof.
  revert a. induction xs as [ | x xs IH ]; intros a; cbn.
  - lra.
  - rewrite IH, (IH (0 + x)). lra.
Qed.

Lemma sum_cons (x : Q) (xs : list Q) : sum (x :: xs) == x + sum xs.
Proof.
  unfold sum. cbn. unfold inject_Z. rewrite fold_plus_acc. lra.
Qed.

Lemma sum_app (xs ys : list Q) : sum (xs ++ ys) == sum xs + sum ys.
Proof.
  induction xs as [ | x xs IH ]; cbn [app].
  - unfold sum at 2. cbn. unfold inject_Z. lra.
  - rewrite !sum_cons, IH. lra.
Qed.

Lemma sum_nonneg (xs : list Q) :
  Forall (fun x => 0 <= x) xs -> 0 <= sum xs.
Proof.
  induction 1 as [ | x xs Hx _ IH ].
  - unfold sum. cbn. unfold inject_Z. lra.
  - rewrite sum_cons. lra.
Qed.

Lemma sum_of_type_cons (name : string) (r : row Q) (df : list (row Q)) :
  sum_of_type name (r :: df)
  == (if String.eqb (lower (tipo r)) name then valor r else 0)
     + sum_of_type name df.
Proof.
  unfold sum_of_type. cbn [filter].
  destruct (String.eqb (lower (tipo r)) name); cbn [map].
  - apply sum_cons.
  - lra.
Qed.

(** The WABA commission is linear: computed on the sum of the WABA sales, as
    the block does, it is the sum of the commissions of the single sales. *)
Theorem waba_commission_additive (xs : list Q) :
  calculate_commission_waba (sum xs)
  == sum (map calculate_commission_waba xs).
Proof.
  unfold calculate_commission_waba. cbn [mul float Q_Number].
  induction xs as [ | x xs IH ]; cbn [map].
  - unfold sum. cbn. unfold inject_Z. lra.
  - rewrite !sum_cons, <- IH. lra.
Qed.

(** The sum of a type over two frames put together is the sum of the two
    sums. *)
Theorem sum_of_type_app (name : string) (df1 df2 : list (row Q)) :
  sum_of_type name (df1 ++ df2)
  == sum_of_type name df1 + sum_of_type name df2.
Proof.
  unfold sum_of_type. rewrite filter_app, map_app. apply sum_app.
Qed.

Lemma sum_permutation (xs ys : list Q) :
  Permutation xs ys -> sum xs == sum ys.
Proof.
  induction 1 as [ | x xs ys _ IH | x y xs | xs ys zs _ IH1 _ IH2 ].
  - reflexivity.
  - rewrite !sum_cons, IH. reflexivity.
  - rewrite !sum_cons. lra.
  - rewrite IH1. exact IH2.
Qed.

Lemma filter_permutation {A : Type} (f : A -> bool) (xs ys : list A) :
  Permutation xs ys -> Permutation (filter f xs) (filter f ys).
Proof.
  induction 1 as [ | x xs ys _ IH | x y xs | xs ys zs _ IH1 _ IH2 ]; cbn.
  - constructor.
  - destruct (f x); [ constructor | ]; exact IH.
  - destruct (f x), (f y); try apply Permutation_refl.
    apply perm_swap.
  - eapply Permutation_trans; eassumption.
Qed.

(** The order of the rows does not matter to a sum per type (on rationals;
    doubles would round differently in another order). *)
Theorem sum_of_type_permutation (name : string) (df df' : list (row Q)) :
  Permutation df df' -> sum_of_type name df == sum_of_type name df'.
Proof.
  intros Hp. unfold sum_of_type.
  apply sum_permutation, Permutation_map, filter_permutation, Hp.
Qed.

Lemma sum_of_type_permutation_witness :
  sum_of_type "standard" (rev scenario_records)
  == sum_of_type "standard" scenario_records.
Proof.
  apply (sum_of_type_permutation "standard" (rev scenario_records)
           scenario_records).
  apply Permutation_sym, Permutation_rev.
Defined.

Lemma filter_filter_implied {A : Type} (f g : A -> bool) (xs : list A) :
  (forall x, f x = true -> g x = true) ->
  filter f (filter g xs) = filter f xs.
Proof.
  intros Hfg. induction xs as [ | x xs IH ]; cbn; [ reflexivity | ].
  destruct (g x) eqn:G; cbn.
  - destruct (f x); now rewrite IH.
  - destruct (f x) eqn:F; [ | exact IH ].
    apply Hfg in F. congruence.
Qed.

Lemma sum_of_type_known (name : string) (df : list (row Q)) :
  In name ["standard"; "waba"; "trial"]%string ->
  sum_of_type name (filter known_type df) = sum_of_type name df.
Proof.
  intros Hn. unfold sum_of_type. rewrite filter_filter_implied; [ reflexivity | ].
  intros r Hr. apply String.eqb_eq in Hr. unfold known_type. rewrite Hr.
  cbn in Hn. destruct Hn as [<- | [<- | [<- | []]]]; reflexivity.
Qed.

(** Rows of any other type are ignored: with them taken out of the frame the
    block gives the same result, metrics or exception, as long as a row of a
    known type is left to keep the frame from being empty. *)
Theorem unknown_types_ignored (df : list (row Q)) (target : Q) :
  filter known_type df <> [] ->
  processing (filter known_type df) target = processing df target.
Proof.
  intros Hk. destruct df as [ | r df ]; [ reflexivity | ].
  destruct (filter known_type (r :: df)) as [ | r' df' ] eqn:E;
    [ contradiction | ].
  rewrite !processing_rows, <- E.
  rewrite !sum_of_type_known by (cbn; tauto). reflexivity.
Qed.

Lemma unknown_types_ignored_witness :
  processing
    (filter known_type
       ({| tipo := "Upgrade"; valor := 700 |} :: scenario_records)) 50000
  = processing ({| tipo := "Upgrade"; valor := 700 |} :: scenario_records)
      50000.
Proof.
  apply (unknown_types_ignored
           ({| tipo := "Upgrade"; valor := 700 |} :: scenario_records) 50000).
  vm_compute. discriminate.
Defined.

(** The total revenue of a run is the sum of the values of the rows of a
    known type: each such row is counted once, in one of the three sums, and
    no other row is counted. *)
Theorem total_revenue_counts_known_rows
  (df : list (row Q)) (target : Q) (m : metrics Q) :
  processing df target = Ok (Some m) ->
  total_revenue m == sum (map valor (filter known_type df)).
Proof.
  intros Hm. apply processing_yields in Hm. destruct Hm as (_ & Ht & Hm).
  rewrite compute_metrics_nonzero_target in Hm by exact Ht.
  injection Hm as <-. cbn [total_revenue]. clear Ht target.
  induction df as [ | r df IH ].
  - unfold sum_of_type, sum. cbn. unfold inject_Z. lra.
  - rewrite !sum_of_type_cons. cbn [filter]. unfold known_type at 1.
    cbn [existsb].
    destruct (String.eqb (lower (tipo r)) "standard") eqn:E1.
    + apply String.eqb_eq in E1. rewrite E1. cbn [String.eqb Ascii.eqb
        Bool.eqb orb map]. rewrite sum_cons, <- IH. cbn. lra.
    + destruct (String.eqb (lower (tipo r)) "waba") eqn:E2.
      * apply String.eqb_eq in E2. rewrite E2. cbn [String.eqb Ascii.eqb
          Bool.eqb orb map]. rewrite sum_cons, <- IH. cbn. lra.
      * destruct (String.eqb (lower (tipo r)) "trial") eqn:E3; cbn [orb map].
        -- rewrite sum_cons, <- IH. lra.
        -- rewrite <- IH. lra.
Qed.

Lemma total_revenue_counts_known_rows_witness :
  exists m,
    processing scenario_records 50000 = Ok (Some m) /\
    total_revenue m == sum (map valor (filter known_type scenario_records)).
Proof.
  destruct (processing_completes scenario_records 50000) as [m Hm];
    [ discriminate | vm_compute; discriminate | ].
  exists m. split; [ exact Hm | ].
  exact (total_revenue_counts_known_rows scenario_records 50000 m Hm).
Defined.

(** The type of a row is compared in lower case: two frames whose rows have
    the same values and types that differ in the case of their letters only
    give the same result. *)
Theorem type_match_ignores_case (df df' : list (row Q)) (target : Q) :
  Forall2 (fun r r' => lower (tipo r) = lower (tipo r') /\ valor r = valor r')
          df df' ->
  processing df target = processing df' target.
Proof.
  intros HF.
  assert (S : forall name, sum_of_type name df = sum_of_type name df').
  { intros name. unfold sum_of_type. f_equal.
    induction HF as [ | r r' df df' [Ht Hv] _ IH ]; [ reflexivity | ].
    cbn [filter]. rewrite Ht.
    destruct (String.eqb (lower (tipo r')) name); cbn [map];
      [ now rewrite Hv, IH | exact IH ]. }
  destruct HF as [ | r r' df df' _ _ ]; [ reflexivity | ].
  rewrite !processing_rows, !S. reflexivity.
Qed.

Lemma type_match_ignores_case_witness :
  processing
    [ {| tipo := "STANDARD"; valor := 12000 |};
      {| tipo := "wAbA"; valor := 3000 |} ] 50000
  = processing
      [ {| tipo := "standard"; valor := 12000 |};
        {| tipo := "Waba"; valor := 3000 |} ] 50000.
Proof.
  apply (type_match_ignores_case
           [ {| tipo := "STANDARD"; valor := 12000 |};
             {| tipo := "wAbA"; valor := 3000 |} ]
           [ {| tipo := "standard"; valor := 12000 |};
             {| tipo := "Waba"; valor := 3000 |} ] 50000).
  repeat constructor.
Defined.

Lemma sum_of_type_nonneg (name : string) (df : list (row Q)) :
  Forall (fun r => 0 <= valor r) df -> 0 <= sum_of_type name df.
Proof.
  intros HF. unfold sum_of_type. apply sum_nonneg.
  induction HF as [ | r df Hr _ IH ]; cbn; [ constructor | ].
  destruct (String.eqb (lower (tipo r)) name); cbn;
    [ constructor; assumption | exact IH ].
Qed.

(** Signs and bounds of the metrics of a run; shared by the statements on
    the metrics and on the display. *)
Lemma nonnegative_metrics
  (df : list (row Q)) (target : Q) (m : metrics Q) :
  Forall (fun r => 0 <= valor r) df ->
  0 < target ->
  processing df target = Ok (Some m) ->
  0 <= val_standard m /\ 0 <= val_waba m /\ 0 <= val_trial m /\
  0 <= total_revenue m /\ 0 <= progress_percent m /\
  0 <= comm_standard m /\ 0 <= rate_standard m /\ 0 <= achievement m /\
  0 <= comm_waba m /\ 0 <= total_commission m /\
  achievement m <= progress_percent m /\
  total_commission m <= 0.10 * total_revenue m.
Proof.
  intros HF Ht Hm. apply processing_yields in Hm. destruct Hm as (_ & Hne & Hm).
  rewrite compute_metrics_nonzero_target in Hm by exact Hne.
  injection Hm as <-. cbn.
  pose proof (sum_of_type_nonneg "standard" df HF) as Hs.
  pose proof (sum_of_type_nonneg "waba" df HF) as Hw.
  pose proof (sum_of_type_nonneg "trial" df HF) as Hr.
  set (s := sum_of_type "standard" df) in *.
  set (w := sum_of_type "waba" df) in *.
  set (tr := sum_of_type "trial" df) in *. clearbody s w tr.
  assert (E : Qle_bool target 0 = false) by (apply leb_false, Ht).
  rewrite E.
  pose proof (achievement_le 0 s target Ht Hs) as Ha0.
  pose proof (achievement_le 0 (s + w + tr) target Ht ltac:(lra)) as Hp0.
  pose proof (achievement_le s (s + w + tr) target Ht ltac:(lra)) as Hap.
  assert (Z : 0 / target * 100 == 0) by (field; lra).
  rewrite Z in Ha0, Hp0.
  pose proof (tier_rate_nonneg (s / target * 100)) as R0.
  pose proof (tier_rate_le_max (s / target * 100)) as R1.
  set (r := tier_rate (s / target * 100)) in *. clearbody r.
  assert (C0 : 0 <= s * r) by (apply Qmult_le_0_compat; assumption).
  assert (C1 : s * r <= 0.08 * s).
  { rewrite (Qmult_comm s r). apply Qmult_le_compat_r; assumption. }
  repeat split; lra.
Qed.

(** With values that are not negative and a positive target no metric of a
    run is negative, the Standard achievement that picks the rate is at most
    the progress that is shown, and the total commission is at most 10% of
    the total revenue. *)
Theorem metrics_of_nonnegative_values
  (df : list (row Q)) (target : Q) (m : metrics Q) :
  Forall (fun r => 0 <= valor r) df ->
  0 < target ->
  processing df target = Ok (Some m) ->
  0 <= val_standard m /\ 0 <= val_waba m /\ 0 <= val_trial m /\
  0 <= total_revenue m /\ 0 <= progress_percent m /\
  0 <= comm_standard m /\ 0 <= rate_standard m /\ 0 <= achievement m /\
  0 <= comm_waba m /\ 0 <= total_commission m /\
  achievement m <= progress_percent m /\
  total_commission m <= 0.10 * total_revenue m.
Proof. exact (nonnegative_metrics df target m). Qed.

Lemma metrics_of_nonnegative_values_witness :
  exists m,
    processing scenario_records 50000 = Ok (Some m) /\
    achievement m <= progress_percent m /\
    total_commission m <= 0.10 * total_revenue m.
Proof.
  destruct (processing_completes scenario_records 50000) as [m Hm];
    [ discriminate | vm_compute; discriminate | ].
  exists m. split; [ exact Hm | ].
  apply (metrics_of_nonnegative_values scenario_records 50000 m);
    [ repeat constructor; vm_compute; discriminate | reflexivity | exact Hm ].
Defined.

(** ** The progress display *)

(** The cases of the bar value; shared by the statements on the display. *)
Lemma progress_bar_value_cases (progress_percent : Q) :
  exists v,
    progress_bar_value progress_percent = Ok v /\
    v <= 1 /\
    (0 <= progress_percent -> 0 <= v) /\
    (progress_percent <= 100 -> v == progress_percent / 100) /\
    (100 <= progress_percent -> v == 1).
Proof.
  unfold progress_bar_value, truediv, py_min. cbn. unfold inject_Z.
  eexists. split; [ reflexivity | ].
  assert (Hq : progress_percent == progress_percent / 100 * 100) by field.
  set (q := progress_percent / 100) in *. clearbody q.
  destruct (Qle_bool q 1.0) eqn:E; cbn;
    [ apply leb_true in E | apply leb_false in E ];
    repeat split; intros; lra.
Qed.

(** The value handed to the progress bar is never above 1: it is the
    hundredth of the progress up to a progress of 100 and 1 from there on,
    and it is not negative when the progress is not. *)
Theorem progress_bar_value_range (progress_percent : Q) :
  exists v,
    progress_bar_value progress_percent = Ok v /\
    v <= 1 /\
    (0 <= progress_percent -> 0 <= v) /\
    (progress_percent <= 100 -> v == progress_percent / 100) /\
    (100 <= progress_percent -> v == 1).
Proof. exact (progress_bar_value_cases progress_percent). Qed.

(** For a run on values that are not negative and a positive target the
    message under the bar never promises less than the rate gives: a rate of
    4% or 8% comes with the message of the goal reached, a rate of 2% or more
    never with the message of the lowest level, and the bar value stays
    within 0 and 1. *)
Theorem message_consistent_with_rate
  (df : list (row Q)) (target : Q) (m : metrics Q) :
  Forall (fun r => 0 <= valor r) df ->
  0 < target ->
  processing df target = Ok (Some m) ->
  (4 <= rate_standard m ->
   message_of_progress (progress_percent m) = MetaBatida) /\
  (2 <= rate_standard m ->
   message_of_progress (progress_percent m) <> ContinueFocado) /\
  (message_of_progress (progress_percent m) = ContinueFocado ->
   rate_standard m <= 1.5) /\
  exists v, progress_bar_value (progress_percent m) = Ok v /\ 0 <= v <= 1.
Proof.
  intros HF Ht Hm.
  destruct (nonnegative_metrics df target m HF Ht Hm)
    as (_ & _ & _ & _ & Hp & _ & _ & _ & _ & _ & Hap & _).
  apply processing_yields in Hm. destruct Hm as (_ & Hne & Hm).
  rewrite compute_metrics_nonzero_target in Hm by exact Hne.
  injection Hm as <-. cbn in *.
  set (a := sum_of_type "standard" df / target * 100) in *.
  set (p := if Qle_bool target 0 then 0 else _) in *. clearbody a p.
  assert (R : (4 <= tier_rate a * 100 -> 100 <= a) /\
              (2 <= tier_rate a * 100 -> 80 <= a)).
  { unfold tier_rate. cbn. order_cases; cbn; split; intros; lra. }
  destruct R as [R4 R2].
  unfold message_of_progress. cbn. unfold inject_Z.
  repeat split.
  - intros H4. apply R4 in H4.
    assert (E : Qle_bool 100 p = true) by (apply leb_true; lra).
    now rewrite E.
  - intros H2. apply R2 in H2.
    destruct (Qle_bool 100 p); [ discriminate | ].
    assert (E : Qle_bool 80 p = true) by (apply leb_true; lra).
    rewrite E. discriminate.
  - destruct (Qle_bool 100 p); [ discriminate | ].
    destruct (Qle_bool 80 p) eqn:E; [ discriminate | ].
    apply leb_false in E. intros _.
    destruct (Qlt_le_dec (tier_rate a * 100) 2) as [L | L].
    + revert L. unfold tier_rate. cbn. order_cases; cbn; lra.
    + apply R2 in L. lra.
  - destruct (progress_bar_value_cases p) as (v & Ev & V1 & V0 & _).
    exists v. split; [ exact Ev | split; [ apply V0, Hp | exact V1 ] ].
Qed.

Lemma message_consistent_with_rate_witness :
  exists m,
    processing demo_data 20000 = Ok (Some m) /\
    (4 <= rate_standard m ->
     message_of_progress (progress_percent m) = MetaBatida).
Proof.
  destruct (processing_completes demo_data 20000) as [m Hm];
    [ discriminate | vm_compute; discriminate | ].
  exists m. split; [ exact Hm | ].
  apply (message_consistent_with_rate demo_data 20000 m);
    [ repeat constructor; vm_compute; discriminate | reflexivity | exact Hm ].
Defined.


(** ** Texts *)

Section TextProperties.

Local Open Scope string_scope.

Lemma prefix_empty (s : string) : prefix "" s = true.
Proof. destruct s; reflexivity. Qed.

(** Replacing one character by one character maps the text. *)
Lemma replace_char (a b : ascii) (s : string) :
  str_replace (String a "") (String b "") s
  = map_chars (fun c => if Ascii.eqb c a then b else c) s.
Proof.
  unfold str_replace. induction s as [ | c s IH ]; [ reflexivity | ].
  cbn [replace_from map_chars prefix String.length Nat.sub].
  destruct (ascii_dec a c) as [ <- | Hac ].
  - rewrite prefix_empty, Ascii.eqb_refl. cbn. now rewrite IH.
  - rewrite IH. destruct (Ascii.eqb c a) eqn:E; [ | reflexivity ].
    apply Ascii.eqb_eq in E. congruence.
Qed.

(** Replacing one character by nothing filters the text. *)
Lemma replace_char_by_nothing (a : ascii) (s : string) :
  str_replace (String a "") "" s
  = filter_chars (fun c => negb (Ascii.eqb c a)) s.
Proof.
  unfold str_replace. induction s as [ | c s IH ]; [ reflexivity | ].
  cbn [replace_from filter_chars prefix String.length Nat.sub].
  destruct (ascii_dec a c) as [ <- | Hac ].
  - rewrite prefix_empty, Ascii.eqb_refl. cbn. exact IH.
  - rewrite IH. destruct (Ascii.eqb c a) eqn:E; [ | reflexivity ].
    apply Ascii.eqb_eq in E. congruence.
Qed.

(** A pattern whose first character is not in the text leaves it alone. *)
Lemma replace_absent (a : ascii) (old new s : string) :
  Forall (fun c => c <> a) (list_ascii_of_string s) ->
  str_replace (String a old) new s = s.
Proof.
  unfold str_replace. induction s as [ | c s IH ]; [ reflexivity | ].
  intros HF. inversion HF as [ | ? ? Hc Hs ]; subst.
  cbn [replace_from prefix].
  destruct (ascii_dec a c) as [ <- | _ ]; [ contradiction | ].
  now rewrite IH.
Qed.

Lemma map_chars_map_chars (f g : ascii -> ascii) (s : string) :
  map_chars f (map_chars g s) = map_chars (fun c => f (g c)) s.
Proof. induction s as [ | c s IH ]; cbn; [ reflexivity | now rewrite IH ]. Qed.

Lemma map_chars_ext (f g : ascii -> ascii) (s : string) :
  (forall c, f c = g c) -> map_chars f s = map_chars g s.
Proof.
  intros E. induction s as [ | c s IH ]; cbn;
    [ reflexivity | now rewrite E, IH ].
Qed.

Lemma map_chars_app (f : ascii -> ascii) (s t : string) :
  map_chars f (s ++ t) = map_chars f s ++ map_chars f t.
Proof. induction s as [ | c s IH ]; cbn; [ reflexivity | now rewrite IH ]. Qed.

Lemma map_chars_list (f : ascii -> ascii) (l : list ascii) :
  map_chars f (string_of_list_ascii l) = string_of_list_ascii (map f l).
Proof. induction l as [ | c l IH ]; cbn; [ reflexivity | now rewrite IH ]. Qed.

Lemma filter_chars_app (f : ascii -> bool) (s t : string) :
  filter_chars f (s ++ t) = filter_chars f s ++ filter_chars f t.
Proof.
  induction s as [ | c s IH ]; cbn; [ reflexivity | ].
  destruct (f c); cbn; now rewrite IH.
Qed.

Lemma filter_chars_list (f : ascii -> bool) (l : list ascii) :
  filter_chars f (string_of_list_ascii l) = string_of_list_ascii (filter f l).
Proof.
  induction l as [ | c l IH ]; cbn; [ reflexivity | ].
  destruct (f c); cbn; now rewrite IH.
Qed.

Lemma chars_app (s t : string) :
  list_ascii_of_string (s ++ t)
  = (list_ascii_of_string s ++ list_ascii_of_string t)%list.
Proof. induction s as [ | c s IH ]; cbn; [ reflexivity | now rewrite IH ]. Qed.

(** The three replacements of [format_brl], seen character by character:
    commas become points and points commas; a letter X, which the code uses
    as its go-between, would come out as a point. *)
Lemma replace_chain_swaps (s : string) :
  str_replace "X" "." (str_replace "." "," (str_replace "," "X" s))
  = map_chars swap_separators s.
Proof.
  rewrite !replace_char, !map_chars_map_chars. apply map_chars_ext.
  intros c. unfold swap_separators.
  destruct (Ascii.eqb c ",") eqn:E1.
  - apply Ascii.eqb_eq in E1. subst c. reflexivity.
  - destruct (Ascii.eqb c "."); reflexivity.
Qed.

(** For every kind of number, [format_brl] is the text ["R$ "] followed by
    the formatted number with its commas and points exchanged. *)
Theorem format_brl_swaps_separators
  {N : Type} `{Formats N} (value : N) :
  format_brl value = "R$ " ++ map_chars swap_separators (format_2f value).
Proof.
  unfold format_brl. rewrite replace_chain_swaps, map_chars_app. reflexivity.
Qed.

(** *** Digits *)

Lemma swap_digit (c : ascii) : is_digit c = true -> swap_separators c = c.
Proof.
  intros Hd. unfold swap_separators.
  destruct (Ascii.eqb c ",") eqn:E1;
    [ apply Ascii.eqb_eq in E1; subst c; discriminate Hd | ].
  destruct (Ascii.eqb c ".") eqn:E2;
    [ apply Ascii.eqb_eq in E2; subst c; discriminate Hd | ].
  destruct (Ascii.eqb c "X") eqn:E3;
    [ apply Ascii.eqb_eq in E3; subst c; discriminate Hd | ].
  reflexivity.
Qed.

Lemma uint_all_digits (d : Decimal.uint) :
  all_digits (NilEmpty.string_of_uint d).
Proof.
  unfold all_digits.
  induction d; cbn; constructor; try reflexivity; assumption.
Qed.

Lemma digits_all_digits (n : Z) : all_digits (digits n).
Proof.
  unfold digits, NilZero.string_of_uint.
  destruct (N.to_uint (Z.to_N n)) eqn:E;
    try (rewrite <- E; apply uint_all_digits).
  repeat constructor.
Qed.

Lemma digit_is_digit (k : Z) : (0 <= k <= 9)%Z -> is_digit (digit k) = true.
Proof.
  intros Hk. unfold digit, is_digit.
  rewrite N_ascii_embedding by lia.
  apply andb_true_intro. split; apply N.leb_le; lia.
Qed.

Lemma two_digits_all_digits (n : Z) : all_digits (two_digits (n mod 100)).
Proof.
  pose proof (Z.mod_pos_bound n 100 ltac:(lia)) as Hb.
  unfold all_digits, two_digits. cbn.
  repeat constructor; apply digit_is_digit.
  - split; [ apply Z.div_pos; lia | ].
    apply Z.lt_succ_r. apply Z.div_lt_upper_bound; lia.
  - pose proof (Z.mod_pos_bound (n mod 100) 10 ltac:(lia)). lia.
Qed.

Lemma map_chars_digits (f : ascii -> ascii) (s : string) :
  (forall c, is_digit c = true -> f c = c) ->
  all_digits s -> map_chars f s = s.
Proof.
  intros Hf. unfold all_digits.
  induction s as [ | c s IH ]; cbn; [ reflexivity | ].
  intros HF. inversion HF as [ | ? ? Hc Hs ]; subst.
  now rewrite Hf, IH.
Qed.

Lemma filter_chars_digits (f : ascii -> bool) (s : string) :
  (forall c, is_digit c = true -> f c = true) ->
  all_digits s -> filter_chars f s = s.
Proof.
  intros Hf. unfold all_digits.
  induction s as [ | c s IH ]; cbn; [ reflexivity | ].
  intros HF. inversion HF as [ | ? ? Hc Hs ]; subst.
  now rewrite Hf, IH.
Qed.

(** *** Groups of three *)

(** The recursion of [group3_rev] goes three characters at a time. *)
Lemma group3_rev_ind (P : list ascii -> Prop) :
  P [] -> (forall a, P [a]) -> (forall a b, P [a; b]) ->
  (forall a b c, P [a; b; c]) ->
  (forall a b c d l, P (d :: l) -> P (a :: b :: c :: d :: l)) ->
  forall l, P l.
Proof.
  intros H0 H1 H2 H3 H4 l.
  assert (G : forall n l, (List.length l <= n)%nat -> P l).
  { induction n as [ | n IH ]; intros [ | a [ | b [ | c [ | d k ] ] ] ] Hl;
      cbn in Hl; auto; try lia.
    apply H4, IH. cbn. lia. }
  apply (G (List.length l)). apply Nat.le_refl.
Qed.

Lemma group3_rev_step (sep a b c d : ascii) (l : list ascii) :
  group3_rev sep (a :: b :: c :: d :: l)
  = a :: b :: c :: sep :: group3_rev sep (d :: l).
Proof. reflexivity. Qed.

Lemma group3_rev_map (f : ascii -> ascii) (sep : ascii) (l : list ascii) :
  Forall (fun c => f c = c) l ->
  map f (group3_rev sep l) = group3_rev (f sep) l.
Proof.
  induction l as [ | a | a b | a b c | a b c d l IH ] using group3_rev_ind;
    intros HF.
  - reflexivity.
  - inversion HF; subst. cbn. congruence.
  - inversion HF as [ | ? ? Ha HF1 ]; subst. inversion HF1; subst.
    cbn. congruence.
  - inversion HF as [ | ? ? Ha HF1 ]; subst.
    inversion HF1 as [ | ? ? Hb HF2 ]; subst. inversion HF2; subst.
    cbn. congruence.
  - inversion HF as [ | ? ? Ha HF1 ]; subst.
    inversion HF1 as [ | ? ? Hb HF2 ]; subst.
    inversion HF2 as [ | ? ? Hc HF3 ]; subst.
    rewrite !group3_rev_step. cbn [map].
    rewrite (IH HF3). congruence.
Qed.

Lemma group3_rev_filter (f : ascii -> bool) (sep : ascii) (l : list ascii) :
  f sep = false ->
  Forall (fun c => f c = true) l ->
  filter f (group3_rev sep l) = l.
Proof.
  intros Hsep.
  induction l as [ | a | a b | a b c | a b c d l IH ] using group3_rev_ind;
    intros HF.
  - reflexivity.
  - inversion HF as [ | ? ? Ha ? ]; subst. cbn. now rewrite Ha.
  - inversion HF as [ | ? ? Ha HF1 ]; subst.
    inversion HF1 as [ | ? ? Hb ? ]; subst. cbn. now rewrite Ha, Hb.
  - inversion HF as [ | ? ? Ha HF1 ]; subst.
    inversion HF1 as [ | ? ? Hb HF2 ]; subst.
    inversion HF2 as [ | ? ? Hc ? ]; subst. cbn. now rewrite Ha, Hb, Hc.
  - inversion HF as [ | ? ? Ha HF1 ]; subst.
    inversion HF1 as [ | ? ? Hb HF2 ]; subst.
    inversion HF2 as [ | ? ? Hc HF3 ]; subst.
    rewrite !group3_rev_step. cbn [filter].
    now rewrite Ha, Hb, Hc, Hsep, (IH HF3).
Qed.

Lemma group3_map (f : ascii -> ascii) (sep : ascii) (s : string) :
  (forall c, is_digit c = true -> f c = c) ->
  all_digits s -> map_chars f (group3 sep s) = group3 (f sep) s.
Proof.
  intros Hf Hs. unfold group3.
  rewrite map_chars_list, map_rev, group3_rev_map; [ reflexivity | ].
  apply Forall_rev. eapply Forall_impl; [ | exact Hs ]. exact Hf.
Qed.

Lemma filter_rev {A : Type} (f : A -> bool) (l : list A) :
  filter f (rev l) = rev (filter f l).
Proof.
  induction l as [ | x l IH ]; cbn; [ reflexivity | ].
  rewrite filter_app, IH. cbn. destruct (f x); cbn;
    [ reflexivity | apply app_nil_r ].
Qed.

Lemma group3_filter (f : ascii -> bool) (sep : ascii) (s : string) :
  f sep = false ->
  (forall c, is_digit c = true -> f c = true) ->
  all_digits s -> filter_chars f (group3 sep s) = s.
Proof.
  intros Hsep Hf Hs. unfold group3.
  rewrite filter_chars_list, filter_rev, group3_rev_filter, rev_involutive.
  - apply string_of_list_ascii_of_string.
  - exact Hsep.
  - apply Forall_rev. eapply Forall_impl; [ | exact Hs ]. exact Hf.
Qed.

(** *** [format_brl] *)

Lemma swapped_decimal_2f (negative : bool) (magnitude : Q) :
  let cents := round_half_even (magnitude * 100) in
  map_chars swap_separators (decimal_2f negative magnitude)
  = (if negative then "-" else "")
    ++ group3 "." (digits (cents / 100)) ++ ","
    ++ two_digits (cents mod 100).
Proof.
  intros cents. unfold decimal_2f. fold cents. rewrite !map_chars_app.
  rewrite (group3_map swap_separators) by
    (first [ exact swap_digit | apply digits_all_digits ]).
  rewrite (map_chars_digits swap_separators (two_digits _)) by
    (first [ exact swap_digit | apply two_digits_all_digits ]).
  destruct negative; reflexivity.
Qed.

(** The text of [format_brl] piece by piece; shared by the statements on
    writing and reading back. *)
Lemma format_brl_text (value : Q) :
  let cents := round_half_even (Qabs value * 100) in
  format_brl value
  = "R$ " ++ (if Qle_bool 0 value then "" else "-")
    ++ group3 "." (digits (cents / 100)) ++ ","
    ++ two_digits (cents mod 100).
Proof.
  intros cents. rewrite format_brl_swaps_separators. cbn [format_2f Q_Formats].
  rewrite swapped_decimal_2f. fold cents.
  destruct (Qle_bool 0 value); reflexivity.
Qed.

(** For every rational value, [format_brl] gives ["R$ "], a minus sign for a
    negative value, the integer digits of the value rounded to hundredths in
    groups of three set off by points, a comma and the two decimals: the
    exchange of the separators never touches anything else. *)
Theorem format_brl_shape (value : Q) :
  let cents := round_half_even (Qabs value * 100) in
  format_brl value
  = "R$ " ++ (if Qle_bool 0 value then "" else "-")
    ++ group3 "." (digits (cents / 100)) ++ ","
    ++ two_digits (cents mod 100).
Proof. exact (format_brl_text value). Qed.

(** *** The cleaning of the column [valor] *)

Lemma digit_is_not (a : ascii) (c : ascii) :
  is_digit a = false -> is_digit c = true -> c <> a.
Proof. intros Ha Hc ->. congruence. Qed.

Lemma group3_rev_Forall (P : ascii -> Prop) (sep : ascii) (l : list ascii) :
  P sep -> Forall P l -> Forall P (group3_rev sep l).
Proof.
  intros Hsep.
  induction l as [ | a | a b | a b c | a b c d l IH ] using group3_rev_ind;
    intros HF; try exact HF.
  inversion HF as [ | ? ? Ha HF1 ]; subst.
  inversion HF1 as [ | ? ? Hb HF2 ]; subst.
  inversion HF2 as [ | ? ? Hc HF3 ]; subst.
  rewrite group3_rev_step. repeat constructor; auto.
Qed.

Lemma group3_Forall (P : ascii -> Prop) (sep : ascii) (s : string) :
  P sep -> (forall c, is_digit c = true -> P c) -> all_digits s ->
  Forall P (list_ascii_of_string (group3 sep s)).
Proof.
  intros Hsep HP Hs. unfold group3.
  rewrite list_ascii_of_string_of_list_ascii.
  apply Forall_rev, group3_rev_Forall; [ exact Hsep | ].
  apply Forall_rev. eapply Forall_impl; [ | exact Hs ]. exact HP.
Qed.

Lemma Forall_app_intro {A : Type} (P : A -> Prop) (l1 l2 : list A) :
  Forall P l1 -> Forall P l2 -> Forall P (l1 ++ l2).
Proof. intros H1 H2. apply Forall_app. split; assumption. Qed.

(** On a text without the letter R, and on such a text behind ["R$"], the
    cleaning drops every point and then turns every comma into a point. *)
Lemma clean_valor_text_plain (t : string) :
  Forall (fun c => c <> "R"%char) (list_ascii_of_string t) ->
  clean_valor_text t
  = map_chars (fun c => if Ascii.eqb c "," then "."%char else c)
      (filter_chars (fun c => negb (Ascii.eqb c ".")) t) /\
  clean_valor_text ("R$" ++ t) = clean_valor_text t.
Proof.
  intros HR. unfold clean_valor_text.
  assert (E : str_replace "R$" "" ("R$" ++ t) = str_replace "R$" "" t).
  { unfold str_replace. cbn. now rewrite prefix_empty. }
  rewrite E, (replace_absent "R" "$" "" t HR).
  rewrite replace_char_by_nothing, replace_char. split; reflexivity.
Qed.

(** What [format_brl] writes, the cleaning of an uploaded sheet reads back:
    from the formatted text of a rational value it makes a blank, the sign
    and the plain decimal numeral of the value rounded to hundredths, with a
    point before the two decimals and no groups. *)
Theorem clean_valor_of_format_brl (value : Q) :
  let cents := round_half_even (Qabs value * 100) in
  clean_valor_text (format_brl value)
  = " " ++ (if Qle_bool 0 value then "" else "-")
    ++ digits (cents / 100) ++ "." ++ two_digits (cents mod 100).
Proof.
  intros cents. rewrite format_brl_text. fold cents.
  set (sign := if Qle_bool 0 value then "" else "-").
  change ("R$ " ++ sign ++ group3 "." (digits (cents / 100)) ++ ","
          ++ two_digits (cents mod 100))
    with ("R$" ++ (" " ++ sign ++ group3 "." (digits (cents / 100)) ++ ","
                   ++ two_digits (cents mod 100))).
  pose proof (digits_all_digits (cents / 100)) as HD.
  pose proof (two_digits_all_digits cents) as HT. fold cents in HT.
  assert (HR : Forall (fun c => c <> "R"%char)
                 (list_ascii_of_string
                    (" " ++ sign ++ group3 "." (digits (cents / 100)) ++ ","
                     ++ two_digits (cents mod 100)))).
  { rewrite !chars_app. repeat apply Forall_app_intro.
    - repeat constructor. discriminate.
    - unfold sign. destruct (Qle_bool 0 value); repeat constructor.
      discriminate.
    - apply group3_Forall; [ discriminate | | exact HD ].
      intros c. apply digit_is_not. reflexivity.
    - repeat constructor. discriminate.
    - eapply Forall_impl; [ | exact HT ].
      intros c. apply digit_is_not. reflexivity. }
  destruct (clean_valor_text_plain _ HR) as [E1 E2]. rewrite E2, E1.
  rewrite !filter_chars_app, !map_chars_app.
  rewrite (group3_filter (fun c => negb (Ascii.eqb c ".")) "." _ eq_refl)
    by (first [ exact HD
              | intros c Hc;
                destruct (Ascii.eqb c ".") eqn:E; [ | reflexivity ];
                apply Ascii.eqb_eq in E; subst c; discriminate Hc ]).
  rewrite (filter_chars_digits _ (two_digits _))
    by (first [ exact HT
              | intros c Hc;
                destruct (Ascii.eqb c ".") eqn:E; [ | reflexivity ];
                apply Ascii.eqb_eq in E; subst c; discriminate Hc ]).
  rewrite (map_chars_digits _ (digits _))
    by (first [ exact HD
              | intros c Hc;
                destruct (Ascii.eqb c ",") eqn:E; [ | reflexivity ];
                apply Ascii.eqb_eq in E; subst c; discriminate Hc ]).
  rewrite (map_chars_digits _ (two_digits _))
    by (first [ exact HT
              | intros c Hc;
                destruct (Ascii.eqb c ",") eqn:E; [ | reflexivity ];
                apply Ascii.eqb_eq in E; subst c; discriminate Hc ]).
  unfold sign. destruct (Qle_bool 0 value); reflexivity.
Qed.

(** A numeral that already has a point before its decimals loses it: the
    cleaning takes every point for a mark of thousands, so the text of
    5000.0 becomes the text of 50000. *)
Theorem clean_valor_drops_decimal_point (whole decimals : string) :
  all_digits whole -> all_digits decimals ->
  clean_valor_text (whole ++ "." ++ decimals) = whole ++ decimals.
Proof.
  intros Hw Hd.
  assert (HR : Forall (fun c => c <> "R"%char)
                 (list_ascii_of_string (whole ++ "." ++ decimals))).
  { rewrite !chars_app. repeat apply Forall_app_intro.
    - eapply Forall_impl; [ | exact Hw ].
      intros c. apply digit_is_not. reflexivity.
    - repeat constructor. discriminate.
    - eapply Forall_impl; [ | exact Hd ].
      intros c. apply digit_is_not. reflexivity. }
  destruct (clean_valor_text_plain _ HR) as [E1 _]. rewrite E1.
  rewrite !filter_chars_app, !map_chars_app.
  assert (F : forall c, is_digit c = true -> negb (Ascii.eqb c ".") = true).
  { intros c Hc. destruct (Ascii.eqb c ".") eqn:E; [ | reflexivity ].
    apply Ascii.eqb_eq in E. subst c. discriminate Hc. }
  assert (M : forall c, is_digit c = true ->
                        (if Ascii.eqb c "," then "."%char else c) = c).
  { intros c Hc. destruct (Ascii.eqb c ",") eqn:E; [ | reflexivity ].
    apply Ascii.eqb_eq in E. subst c. discriminate Hc. }
  rewrite (filter_chars_digits _ whole F), (filter_chars_digits _ decimals F)
    by assumption.
  rewrite (map_chars_digits _ whole M), (map_chars_digits _ decimals M)
    by assumption.
  reflexivity.
Qed.

Lemma clean_valor_drops_decimal_point_witness :
  clean_valor_text "5000.0" = "50000".
Proof.
  apply (clean_valor_drops_decimal_point "5000" "0");
    repeat constructor.
Defined.

End TextProperties.

(** * The same runs on IEEE binary64 numbers *)

Module OnDoubles.
Import Binary64.

(** The scenario of four records gives the same numbers, exactly, when every
    operation rounds as a double does. *)
Example scenario_four_records_binary64 :
  processing scenario_records (int 50000)
  = Ok (Some {| val_standard := int 17000; val_waba := int 3000;
                val_trial := int 1000; total_revenue := int 21000;
                progress_percent := int 42;
                comm_standard := int 0; rate_standard := int 0;
                achievement := int 34; comm_waba := int 300;
                total_commission := int 300 |}).
Proof. vm_compute. reflexivity. Qed.

(** The script's demo rows against the default target of 50000: Standard
    sales of 25000 reach exactly 50%, the first band, at 1.5%. *)
Example demo_data_binary64 :
  processing demo_data (int 50000)
  = Ok (Some {| val_standard := int 25000; val_waba := int 8000;
                val_trial := int 1000; total_revenue := int 34000;
                progress_percent := int 68;
                comm_standard := int 375; rate_standard := float 1.5;
                achievement := int 50; comm_waba := int 800;
                total_commission := int 1175 |}).
Proof. vm_compute. reflexivity. Qed.

Example scenario_90_percent_binary64 :
  calculate_commission_standard (int 45000) (int 50000)
  = Ok (VTuple [int 900; int 2; int 90]).
Proof. vm_compute. reflexivity. Qed.

Example scenario_120_percent_binary64 :
  calculate_commission_standard (int 60000) (int 50000)
  = Ok (VTuple [int 4800; int 8; int 120]).
Proof. vm_compute. reflexivity. Qed.

(** An achievement of exactly 80.0 is in the band of 2%. *)
Example boundary_80_binary64 :
  calculate_commission_standard (int 40000) (int 50000)
  = Ok (VTuple [int 800; int 2; int 80]).
Proof. vm_compute. reflexivity. Qed.

(** A target of 0.0: the bare number, and the [TypeError] of the block. *)
Example zero_target_binary64 :
  calculate_commission_standard (int 45000) (float 0.0)
  = Ok (VNum (float 0.0)) /\
  processing demo_data (float 0.0) = Raise TypeError.
Proof. split; vm_compute; reflexivity. Qed.

(** A negative target: no exception, rate zero, achievement -2. *)
Example negative_target_binary64 :
  calculate_commission_standard (int 1000) (int (-50000))
  = Ok (VTuple [int 0; int 0; int (-2)]).
Proof. vm_compute. reflexivity. Qed.


(** ** Properties that hold for every double *)



(** [format_brl] on every double: a finite one is written from its exact
    value rounded to hundredths, half to even, with the sign of its sign
    bit, points between the groups of three and a comma before the
    decimals; not-a-number and the infinities keep their names. *)
Theorem format_brl_binary64 (value : spec_float) :
  format_brl value
  = ("R$ " ++
     match value with
     | S754_nan => "nan"
     | S754_infinity s => if s then "-inf" else "inf"
     | S754_zero s => (if s then "-" else "") ++ "0,00"
     | S754_finite s m e =>
       let cents := round_half_even (Q_of_finite m e * 100) in
       (if s then "-" else "")
       ++ group3 "." (digits (cents / 100)) ++ ","
       ++ two_digits (cents mod 100)
     end)%string.
Proof.
  rewrite format_brl_swaps_separators. f_equal.
  destruct value as [ s | s | | s m e ]; cbn [format_2f binary64_Formats].
  - rewrite swapped_decimal_2f. destruct s; reflexivity.
  - destruct s; reflexivity.
  - reflexivity.
  - apply swapped_decimal_2f.
Qed.

(** The double nearest to 2.675 lies below it and is written 2,67; the one
    nearest to 1234.565 lies above and is written 1.234,57; minus zero keeps
    its sign. *)
Example format_brl_binary64_examples :
  format_brl (float 2.675) = "R$ 2,67"%string /\
  format_brl (float 1234.565) = "R$ 1.234,57"%string /\
  format_brl (float 1234567.891) = "R$ 1.234.567,89"%string /\
  format_brl (SFopp (float 0.0)) = "R$ -0,00"%string.
Proof. repeat split; vm_compute; reflexivity. Qed.

End OnDoubles.
